(** * create_view_using_metadata: the view generator of snow-json

    A shallow embedding of the JavaScript stored procedure
    [src/JavaScript/sf_create_view_using_metadata.js].

    The procedure reads the catalog of a table, expands every VARIANT column
    into one projected column per attribute path found in its data, and
    builds the text of a [CREATE OR REPLACE VIEW] statement.

    Modelling choices:
    - JavaScript strings are [string]s holding UTF-8 text: a character of
      ASCII is one byte, a character outside ASCII is the two to four
      bytes of its encoding.  The procedure looks at single characters in
      two ways only: it removes the first character of a path, and it
      compares the first character of an upper-cased parameter with M
      and with S.  [Js.toUpperCase] is exact on ASCII and on the four
      characters outside ASCII whose upper case starts with S (none has
      an upper case that starts with M); the other characters outside
      ASCII are carried over as they are, and none of their bytes equals
      an ASCII character.
    - Executing a statement made by [snowflake.createStatement] is a function of
      the statement text [q], one per statement site, returning the rows
      of the result set with the columns of that site's SELECT list.
    - The JavaScript variables [col_list], [table_list] and [array_num] that
      the nested loops update are threaded through as a record [Vars].
    - [array_num] is a natural number ([N]); [f.index] is a number or NULL. *)

From Stdlib Require Import String Ascii List NArith Bool Lia Sorted.
From Stdlib Require Import DecimalString.
Import ListNotations.
Open Scope string_scope.

(** ** Strings as JavaScript uses them *)

Module Js.

(** The double-quote character, U+0022. *)
Definition dquote : string := String "034"%char EmptyString.

(** The line feed, U+000A. *)
Definition nl : string := String "010"%char EmptyString.

(** The upper case of one byte: a-z go to A-Z, every other byte stays. *)
Definition upper_ascii (c : ascii) : ascii :=
  let n := nat_of_ascii c in
  if andb (Nat.leb 97 n) (Nat.leb n 122) then ascii_of_nat (n - 32) else c.

(** The characters outside ASCII whose upper case starts with an S, in
    UTF-8: U+00DF (sharp s, upper case SS), U+017F (long s, upper case S),
    U+FB05 and U+FB06 (the ligatures long s-t and s-t, upper case ST). *)
Definition sharp_s : string := String "195"%char (String "159"%char EmptyString).
Definition long_s : string := String "197"%char (String "191"%char EmptyString).
Definition long_s_t : string :=
  String "239"%char (String "172"%char (String "133"%char EmptyString)).
Definition s_t : string :=
  String "239"%char (String "172"%char (String "134"%char EmptyString)).

(** [s.toUpperCase()]: the four characters above are replaced by their
    upper case, which is longer than one character for three of them;
    every other character goes through byte by byte. *)
Fixpoint toUpperCase (s : string) : string :=
  match s with
  | EmptyString => EmptyString
  | String "195"%char (String "159"%char r) => String "S" (String "S" (toUpperCase r))
  | String "197"%char (String "191"%char r) => String "S" (toUpperCase r)
  | String "239"%char (String "172"%char (String "133"%char r)) =>
      String "S" (String "T" (toUpperCase r))
  | String "239"%char (String "172"%char (String "134"%char r)) =>
      String "S" (String "T" (toUpperCase r))
  | String c r => String (upper_ascii c) (toUpperCase r)
  end.

(** [s.charAt(0)]: the first character, or the empty string.  A first
    character outside ASCII is stood for by its first byte. *)
Definition charAt0 (s : string) : string :=
  match s with
  | EmptyString => EmptyString
  | String c _ => String c EmptyString
  end.

(** [s.substring(1)]: [s] without its first character.  It is applied to
    the paths of array elements, which start with an ASCII character when
    they are not empty. *)
Definition substring1 (s : string) : string :=
  match s with
  | EmptyString => EmptyString
  | String _ r => r
  end.

(** A number converted to a string by [+]. *)
Definition of_num (n : N) : string := NilZero.string_of_uint (N.to_uint n).

(** A number or [null] converted to a string by [+]. *)
Definition of_value (v : option N) : string :=
  match v with
  | Some n => of_num n
  | None => "null"
  end.

End Js.

(** ** The two SQL type expressions and what they compute

    [attribute_type] is a piece of SQL text; the database evaluates it on
    [typeof(f.value)] of every flattened value.  [Sql.decode] is the parsed
    form of such a text, [Sql.render] prints it back and [Sql.eval] is the
    meaning of [DECODE] and [substr]. *)

Module Sql.

Inductive subject : Type :=
| Typeof                              (* typeof(f.value) *)
| SubstrTypeof (start len : nat).     (* substr(typeof(f.value),start,len) *)

Record decode : Type := mkDecode {
  d_subject : subject;
  d_cases : list (string * string);
  d_default : string
}.

Definition render_subject (s : subject) : string :=
  match s with
  | Typeof => "typeof(f.value)"
  | SubstrTypeof a b =>
      "substr(typeof(f.value)," ++ Js.of_num (N.of_nat a) ++ ","
        ++ Js.of_num (N.of_nat b) ++ ")"
  end.

Fixpoint render_cases (cs : list (string * string)) : string :=
  match cs with
  | [] => ""
  | (k, v) :: r => "'" ++ k ++ "','" ++ v ++ "'," ++ render_cases r
  end.

Definition render (d : decode) : string :=
  "DECODE (" ++ render_subject (d_subject d) ++ "," ++ render_cases (d_cases d)
    ++ "'" ++ d_default d ++ "')".

(** [substr(t, start, len)] counts positions from 1. *)
Definition eval_subject (s : subject) (t : string) : string :=
  match s with
  | Typeof => t
  | SubstrTypeof a b => substring (a - 1) b t
  end.

(** [DECODE(x, k1, v1, ..., default)]: the value of the first key equal
    to [x], the default when there is none. *)
Fixpoint eval_cases (cs : list (string * string)) (dflt x : string) : string :=
  match cs with
  | [] => dflt
  | (k, v) :: r => if x =? k then v else eval_cases r dflt x
  end.

Definition eval (d : decode) (t : string) : string :=
  eval_cases (d_cases d) (d_default d) (eval_subject (d_subject d) t).

End Sql.

(** ** Result rows *)

(** A row of the catalog statement: [COLUMN_NAME], [DATA_TYPE]. *)
Record ColumnRow : Type := mkColumnRow {
  c_name : string;     (* getColumnValue(1) *)
  c_type : string      (* getColumnValue(2) *)
}.

(** A row of [element_query]: [path_name], [attribute_type], [alias_name]. *)
Record ElementRow : Type := mkElementRow {
  e_path : string;     (* getColumnValue(1) *)
  e_type : string;     (* getColumnValue(2) *)
  e_alias : string     (* getColumnValue(3) *)
}.

(** A row of [array_query]: [path_name], [attribute_type], [attribute_name],
    [f.index]. *)
Record ArrayRow : Type := mkArrayRow {
  a_path : string;        (* getColumnValue(1) *)
  a_type : string;        (* getColumnValue(2) *)
  a_alias : string;       (* getColumnValue(3) *)
  a_index : option N      (* getColumnValue(4) *)
}.

(** The statement executor, one function per statement site. *)
Record Snowflake : Type := mkSnowflake {
  exec_columns : string -> list ColumnRow;
  exec_elements : string -> list ElementRow;
  exec_array : string -> list ArrayRow
}.

(** The variables the loops update. *)
Record Vars : Type := mkVars {
  col_list : string;
  table_list : string;
  array_num : N
}.

(** ** The procedure *)

Section Procedure.

Variables DATA_BASE SCHEMA_NAME V_TAB_NM COLUMN_CASE COLUMN_TYPE : string.
Variable snowflake : Snowflake.

(* line 71 *)
Definition path_name : string :=
  "regexp_replace(regexp_replace(f.path,'\\[(.+)\\]'),'(\\w+)','"
    ++ Js.dquote ++ "\\1" ++ Js.dquote ++ "')".

(* line 73 *)
Definition alias_name : string :=
  "REGEXP_REPLACE(REGEXP_REPLACE(f.path, '\\[(.+)\\]'),'[^a-zA-Z0-9]','_')".

(* lines 76, 83-84 *)
Definition alias_dbl_quote : string :=
  if Js.charAt0 (Js.toUpperCase COLUMN_CASE) =? "M" then Js.dquote else "".

(* lines 72, 85-86 *)
Definition attribute_type : string :=
  if Js.charAt0 (Js.toUpperCase COLUMN_TYPE) =? "S"
  then "DECODE (typeof(f.value),'ARRAY','ARRAY','STRING')"
  else "DECODE (substr(typeof(f.value),1,1),'A','ARRAY','B','BOOLEAN','I','FLOAT','D','FLOAT','STRING')".

(** The parsed form of [attribute_type]. *)
Definition attribute_type_sql : Sql.decode :=
  if Js.charAt0 (Js.toUpperCase COLUMN_TYPE) =? "S"
  then Sql.mkDecode Sql.Typeof [("ARRAY", "ARRAY")] "STRING"
  else Sql.mkDecode (Sql.SubstrTypeof 1 1)
         [("A", "ARRAY"); ("B", "BOOLEAN"); ("I", "FLOAT"); ("D", "FLOAT")]
         "STRING".

(* lines 74, 75, 77 *)
Definition initial : Vars :=
  mkVars "" (SCHEMA_NAME ++ "." ++ V_TAB_NM) 0.

(* lines 91-95 *)
Definition sqlMetaQryBld : string :=
  "select distinct COLUMN_NAME " ++ Js.nl ++
  ", DATA_TYPE " ++ Js.nl ++
  "from " ++ DATA_BASE ++ "." ++ "information_schema.columns " ++ Js.nl ++
  "where table_name = '" ++ V_TAB_NM ++ "'" ++ Js.nl ++
  "and table_schema = '" ++ SCHEMA_NAME ++ "'".

(* lines 113-120 *)
Definition element_query (tables col : string) : string :=
  "SELECT DISTINCT " ++ Js.nl ++
  path_name ++ " AS path_name, " ++ Js.nl ++
  attribute_type ++ " AS attribute_type, " ++ Js.nl ++
  alias_name ++ " AS alias_name " ++ Js.nl ++
  "FROM " ++ tables ++ ", " ++ Js.nl ++
  "LATERAL FLATTEN(" ++ col ++ ", RECURSIVE=>true) f " ++ Js.nl ++
  "WHERE TYPEOF(f.value) != 'OBJECT' " ++ Js.nl ++
  "AND NOT contains(f.path,'[') ".

(* lines 161-168 *)
Definition array_query (tables col path : string) : string :=
  "SELECT DISTINCT " ++ Js.nl ++
  path_name ++ " AS path_name, " ++ Js.nl ++
  attribute_type ++ " AS attribute_type, " ++ Js.nl ++
  alias_name ++ " AS attribute_name, " ++ Js.nl ++
  "f.index " ++ Js.nl ++
  "FROM " ++ tables ++ ", " ++ Js.nl ++
  "LATERAL FLATTEN(" ++ col ++ ":" ++ path ++ ", RECURSIVE=>true) f " ++ Js.nl ++
  "WHERE REGEXP_REPLACE(f.path, '.+(\\w+\\[.+\\]).+', 'SubArrayEle') != 'SubArrayEle' ".

(** Lines 146-147 and their copies: a separator (comma, space, line
    feed) is appended to a list that is not the empty string. *)
Definition add_separator (s : string) : string :=
  if s =? "" then s else s ++ (", " ++ Js.nl).

(** The body of [while (array_res.next())], lines 204-218, on the pair
    [(simple_array_col_list, object_array_col_list)]. *)
Definition array_body (col : string) (e : ElementRow) (n : N)
    (acc : string * string) (a : ArrayRow) : string * string :=
  let '(simple_array_col_list, object_array_col_list) := acc in
  if Js.substring1 (a_path a) =? "" then
    let s := add_separator simple_array_col_list in
    let s := s ++ (col ++ ":" ++ e_path e) in
    let s := s ++ ("[" ++ Js.of_value (a_index a) ++ "]") in
    let s := s ++ ("::" ++ a_type a) in
    let s := s ++ (" as " ++ alias_dbl_quote ++ col ++ "_" ++ e_alias e ++ "_"
                     ++ Js.of_value (a_index a) ++ alias_dbl_quote) in
    (s, object_array_col_list)
  else
    let o := add_separator object_array_col_list in
    let o := o ++ ("a" ++ Js.of_num n ++ ".value:" ++ Js.substring1 (a_path a)) in
    let o := o ++ ("::" ++ a_type a) in
    let o := o ++ (" as " ++ alias_dbl_quote ++ col ++ "_" ++ e_alias e
                     ++ a_alias a ++ alias_dbl_quote) in
    (simple_array_col_list, o).

(** The loop of lines 203-219. *)
Definition array_loop (col : string) (e : ElementRow) (n : N)
    (rows : list ArrayRow) : string * string :=
  fold_left (array_body col e n) rows ("", "").

(** The body of the loop over [element_res], lines 143-236. *)
Definition element_body (col : string) (e : ElementRow) (v : Vars) : Vars :=
  if negb (e_type e =? "ARRAY") then
    let c := add_separator (col_list v) in
    let c := c ++ (col ++ ":" ++ e_path e) in
    let c := c ++ ("::" ++ e_type e) in
    let c := c ++ (" as " ++ col ++ "_" ++ e_alias e) in
    mkVars c (table_list v) (array_num v)
  else
    let n := (array_num v + 1)%N in
    let array_res := exec_array snowflake (array_query (table_list v) col (e_path e)) in
    let '(simple_array_col_list, object_array_col_list) := array_loop col e n array_res in
    if object_array_col_list =? "" then
      let c := add_separator (col_list v) in
      mkVars (c ++ simple_array_col_list) (table_list v) n
    else
      let c := add_separator (col_list v) in
      mkVars (c ++ object_array_col_list)
             (table_list v ++ ("," ++ Js.nl ++ " LATERAL FLATTEN(" ++ col ++ ":" ++ e_path e
                                 ++ ") a" ++ Js.of_num n))
             n.

(** The loop of line 129: its condition asks for a next row and for a
    path in it other than the empty string, so the loop ends at the
    first row whose path is empty. *)
Fixpoint element_loop (col : string) (rows : list ElementRow) (v : Vars) : Vars :=
  match rows with
  | [] => v
  | e :: rest =>
      if negb (e_path e =? "") then element_loop col rest (element_body col e v)
      else v
  end.

(** The body of [while (sqlMetaRes.next())], lines 110-247. *)
Definition column_body (v : Vars) (c : ColumnRow) : Vars :=
  if c_type c =? "VARIANT" then
    let element_res := exec_elements snowflake (element_query (table_list v) (c_name c)) in
    element_loop (c_name c) element_res v
  else
    let l := add_separator (col_list v) in
    mkVars (l ++ c_name c) (table_list v) (array_num v).

(** The loop of lines 106-248, from the initial values of the variables. *)
Definition column_loop (rows : list ColumnRow) : Vars :=
  fold_left column_body rows initial.

Definition final : Vars :=
  column_loop (exec_columns snowflake sqlMetaQryBld).

(* lines 251-253 *)
Definition view_ddl : string :=
  "CREATE OR REPLACE VIEW " ++ V_TAB_NM ++ "_VW AS " ++ Js.nl ++
  "SELECT " ++ Js.nl ++ col_list final ++ Js.nl ++
  "FROM " ++ table_list final.

End Procedure.

(** ** Notions used to state the properties *)

(** The separator between two entries of a projection list. *)
Definition sep : string := ", " ++ Js.nl.

(** The test of line 204, negated: the path of an array element, without
    its first character, is not the empty string. *)
Definition is_object (a : ArrayRow) : bool :=
  negb (Js.substring1 (a_path a) =? "").

(** The text one simple element adds (lines 207-210). *)
Definition simple_fragment (q col : string) (e : ElementRow) (a : ArrayRow) : string :=
  col ++ ":" ++ e_path e ++ "[" ++ Js.of_value (a_index a) ++ "]" ++ "::" ++ a_type a
    ++ " as " ++ q ++ col ++ "_" ++ e_alias e ++ "_" ++ Js.of_value (a_index a) ++ q.

(** The text one object element adds (lines 215-217). *)
Definition object_fragment (q col : string) (e : ElementRow) (n : N) (a : ArrayRow) : string :=
  "a" ++ Js.of_num n ++ ".value:" ++ Js.substring1 (a_path a) ++ "::" ++ a_type a
    ++ " as " ++ q ++ col ++ "_" ++ e_alias e ++ a_alias a ++ q.

Definition simple_candidates (q col : string) (e : ElementRow)
    (rows : list ArrayRow) : list string :=
  map (simple_fragment q col e) (filter (fun a => negb (is_object a)) rows).

Definition object_candidates (q col : string) (e : ElementRow) (n : N)
    (rows : list ArrayRow) : list string :=
  map (object_fragment q col e n) (filter is_object rows).

(** The text of one auxiliary source: a LATERAL FLATTEN of [origin], named
    by the array id (line 234). *)
Definition join_source (origin : string) (n : N) : string :=
  "," ++ Js.nl ++ " LATERAL FLATTEN(" ++ origin ++ ") a" ++ Js.of_num n.

(** One ARRAY entry as the loops meet it: the column, the path, the id it
    is given and the rows its array statement returns. *)
Record ArrayVisit : Type := mkArrayVisit {
  v_col : string;
  v_path : string;
  v_id : N;
  v_rows : list ArrayRow
}.

Definition has_object (w : ArrayVisit) : bool := existsb is_object (v_rows w).

Definition source_of (w : ArrayVisit) : string :=
  join_source (v_col w ++ ":" ++ v_path w) (v_id w).

Fixpoint render_sources (ws : list ArrayVisit) : string :=
  match ws with
  | [] => ""
  | w :: r => source_of w ++ render_sources r
  end.

Definition nonempty (s : string) : Prop := s <> "".

(** Whether the first character of [s] is [u] or [l]. *)
Definition starts_with (u l : ascii) (s : string) : bool :=
  match s with
  | EmptyString => false
  | String c _ => (c =? u)%char || (c =? l)%char
  end.

(** Whether [s] begins with the text [p]. *)
Fixpoint begins (p s : string) : bool :=
  match p with
  | EmptyString => true
  | String a p' =>
      match s with
      | EmptyString => false
      | String b s' => (a =? b)%char && begins p' s'
      end
  end.

(** The values of COLUMN_TYPE whose first character has an upper case that
    starts with S: the letters S and s, and the four characters outside
    ASCII of [Js.sharp_s], [Js.long_s], [Js.long_s_t] and [Js.s_t]. *)
Definition string_types (s : string) : bool :=
  starts_with "S" "s" s
  || begins Js.sharp_s s || begins Js.long_s s
  || begins Js.long_s_t s || begins Js.s_t s.

(** The ids [k+1], [k+2], ..., [k+len]. *)
Fixpoint ids_after (k : N) (len : nat) : list N :=
  match len with
  | O => []
  | S m => (k + 1)%N :: ids_after (k + 1)%N m
  end.

(** The variables [v'] follow from [v] by meeting the ARRAY entries [ws]:
    the table list grew by their sources, the counter by their number, and
    their ids are the next values of the counter. *)
Definition trace_ok (v : Vars) (ws : list ArrayVisit) (v' : Vars) : Prop :=
  table_list v' = table_list v ++ render_sources (filter has_object ws)
  /\ array_num v' = (array_num v + N.of_nat (List.length ws))%N
  /\ map v_id ws = ids_after (array_num v) (List.length ws).

Section Trace.

Variables SCHEMA_NAME V_TAB_NM COLUMN_CASE COLUMN_TYPE DATA_BASE : string.
Variable snowflake : Snowflake.

(** The ARRAY entry met by one pass of the element loop body, if any;
    the same test, id and statement as [element_body]. *)
Definition element_visit (col : string) (e : ElementRow) (v : Vars) : list ArrayVisit :=
  if negb (e_type e =? "ARRAY") then []
  else [mkArrayVisit col (e_path e) (array_num v + 1)%N
          (exec_array snowflake
             (array_query COLUMN_TYPE (table_list v) col (e_path e)))].

(** The ARRAY entries met by [element_loop], in order. *)
Fixpoint element_visits (col : string) (rows : list ElementRow) (v : Vars)
    : list ArrayVisit :=
  match rows with
  | [] => []
  | e :: rest =>
      if negb (e_path e =? "")
      then (element_visit col e v
             ++ element_visits col rest
                  (element_body COLUMN_CASE COLUMN_TYPE snowflake col e v))%list
      else []
  end.

Definition column_visits (v : Vars) (c : ColumnRow) : list ArrayVisit :=
  if c_type c =? "VARIANT" then
    element_visits (c_name c)
      (exec_elements snowflake (element_query COLUMN_TYPE (table_list v) (c_name c))) v
  else [].

(** The ARRAY entries met by the loop over the catalog rows, from [v]. *)
Fixpoint columns_visits (rows : list ColumnRow) (v : Vars) : list ArrayVisit :=
  match rows with
  | [] => []
  | c :: rest =>
      (column_visits v c
        ++ columns_visits rest (column_body COLUMN_CASE COLUMN_TYPE snowflake v c))%list
  end.

(** The ARRAY entries of one run, in discovery order. *)
Definition visits : list ArrayVisit :=
  columns_visits (exec_columns snowflake (sqlMetaQryBld DATA_BASE SCHEMA_NAME V_TAB_NM))
    (initial SCHEMA_NAME V_TAB_NM).

(** The auxiliary sources of one run: the visited arrays that have an
    object element. *)
Definition auxiliary_sources : list ArrayVisit := filter has_object visits.

End Trace.

(** ** Notions used for the whole projection list *)

(** The rows of an element statement before the first row whose path is
    the empty string. *)
Fixpoint leading (rows : list ElementRow) : list ElementRow :=
  match rows with
  | [] => []
  | e :: rest => if negb (e_path e =? "") then e :: leading rest else []
  end.

(** Whether the type column of an element row is ARRAY (line 143). *)
Definition is_array (e : ElementRow) : bool := e_type e =? "ARRAY".

(** One more entry at the end of a projection list: the separator when
    the list is not empty, then the entry. *)
Definition push (s f : string) : string := add_separator s ++ f.

(** The text a path that is not an array adds (lines 148-150). *)
Definition leaf_fragment (col : string) (e : ElementRow) : string :=
  col ++ ":" ++ e_path e ++ "::" ++ e_type e ++ " as " ++ col ++ "_" ++ e_alias e.

Section Entries.

Variables SCHEMA_NAME V_TAB_NM COLUMN_CASE COLUMN_TYPE DATA_BASE : string.
Variable snowflake : Snowflake.

(** The entry one pass of the element loop body adds to the projection
    list: a leaf fragment, or the candidates kept for an array. *)
Definition element_entry (col : string) (e : ElementRow) (v : Vars) : string :=
  if negb (e_type e =? "ARRAY") then leaf_fragment col e
  else
    let n := (array_num v + 1)%N in
    let rows := exec_array snowflake
                  (array_query COLUMN_TYPE (table_list v) col (e_path e)) in
    if existsb is_object rows
    then String.concat sep (object_candidates (alias_dbl_quote COLUMN_CASE) col e n rows)
    else String.concat sep (simple_candidates (alias_dbl_quote COLUMN_CASE) col e rows).

(** The entries added by [element_loop], in order. *)
Fixpoint element_entries (col : string) (rows : list ElementRow) (v : Vars)
    : list string :=
  match rows with
  | [] => []
  | e :: rest =>
      if negb (e_path e =? "")
      then element_entry col e v
             :: element_entries col rest
                  (element_body COLUMN_CASE COLUMN_TYPE snowflake col e v)
      else []
  end.

Definition column_entries (v : Vars) (c : ColumnRow) : list string :=
  if c_type c =? "VARIANT" then
    element_entries (c_name c)
      (exec_elements snowflake (element_query COLUMN_TYPE (table_list v) (c_name c))) v
  else [c_name c].

(** The entries added by the loop over the catalog rows, from [v]. *)
Fixpoint columns_entries (rows : list ColumnRow) (v : Vars) : list string :=
  match rows with
  | [] => []
  | c :: rest =>
      (column_entries v c
         ++ columns_entries rest (column_body COLUMN_CASE COLUMN_TYPE snowflake v c))%list
  end.

(** The entries of one run, in discovery order. *)
Definition entries : list string :=
  columns_entries (exec_columns snowflake (sqlMetaQryBld DATA_BASE SCHEMA_NAME V_TAB_NM))
    (initial SCHEMA_NAME V_TAB_NM).

End Entries.

(** ** Sample tables *)

Module Sample.

(** A key between double quotes, as [path_name] returns it. *)
Definition key (s : string) : string := Js.dquote ++ s ++ Js.dquote.

Definition name_first : ElementRow :=
  mkElementRow (key "name" ++ "." ++ key "first") "STRING" "name_first".
Definition name_last : ElementRow :=
  mkElementRow (key "name" ++ "." ++ key "last") "STRING" "name_last".
Definition root_value : ElementRow := mkElementRow "" "STRING" "".
Definition code_rgb : ElementRow :=
  mkElementRow (key "code" ++ "." ++ key "rgb") "ARRAY" "code_rgb".
Definition contact_phone : ElementRow :=
  mkElementRow (key "contact" ++ "." ++ key "phone") "ARRAY" "contact_phone".
Definition tags : ElementRow := mkElementRow (key "tags") "ARRAY" "tags".

Definition rgb_rows : list ArrayRow :=
  [mkArrayRow "" "FLOAT" "" (Some 0%N);
   mkArrayRow "" "FLOAT" "" (Some 1%N);
   mkArrayRow "" "FLOAT" "" (Some 2%N)].

Definition phone_rows : list ArrayRow :=
  [mkArrayRow "" "STRING" "" (Some 0%N);
   mkArrayRow ("." ++ key "type") "STRING" "_type" None;
   mkArrayRow ("." ++ key "number") "STRING" "_number" None].

(** Whether [needle] occurs in the statement text [q]. *)
Definition mentions (needle q : string) : bool :=
  match String.index 0 needle q with
  | Some _ => true
  | None => false
  end.

(** The rows an array statement returns, chosen by the path it flattens. *)
Definition arrays (q : string) : list ArrayRow :=
  if mentions (key "rgb" ++ ", RECURSIVE") q then rgb_rows
  else if mentions (key "phone" ++ ", RECURSIVE") q then phone_rows
  else [].

Definition json_table (elements : list ElementRow) : Snowflake :=
  mkSnowflake
    (fun _ => [mkColumnRow "ID" "NUMBER"; mkColumnRow "json_data" "VARIANT"])
    (fun _ => elements)
    arrays.

Definition scalar_table : Snowflake :=
  mkSnowflake
    (fun _ => [mkColumnRow "ID" "NUMBER"; mkColumnRow "CITY" "TEXT";
               mkColumnRow "CREATED" "DATE"])
    (fun _ => [])
    (fun _ => []).

Definition start : Vars := initial "PUBLIC" "CONTACTS".
Definition one_column : Vars := mkVars "ID" "PUBLIC.CONTACTS" 0.

End Sample.

(** ** Strings *)

Lemma app_assoc_s (a b c : string) : (a ++ b) ++ c = a ++ (b ++ c).
Proof. induction a as [|x a IH]; simpl; [reflexivity | now rewrite IH]. Qed.

Lemma app_nil_r_s (a : string) : a ++ "" = a.
Proof. induction a as [|x a IH]; simpl; [reflexivity | now rewrite IH]. Qed.

Lemma app_eq_nil_s (a b : string) : a ++ b = "" -> a = "" /\ b = "".
Proof. destruct a; simpl; [auto | discriminate]. Qed.

Lemma app_length_s (a b : string) :
  String.length (a ++ b) = String.length a + String.length b.
Proof. induction a as [|x a IH]; simpl; [reflexivity | now rewrite IH]. Qed.

Lemma app_eq_self (a b : string) : a ++ b = a -> b = "".
Proof.
  intros H. apply (f_equal String.length) in H.
  rewrite app_length_s in H.
  destruct b; [reflexivity | simpl in H; lia].
Qed.

Lemma app_inv_head_s (a b c : string) : a ++ b = a ++ c -> b = c.
Proof. induction a as [|x a IH]; simpl; intros H; [assumption | injection H; auto]. Qed.

(** Normalises nested appends and compares. *)
Ltac string_eq := repeat rewrite app_assoc_s; simpl; reflexivity.

Lemma add_separator_nil : add_separator "" = "".
Proof. reflexivity. Qed.

Lemma add_separator_cons (s : string) : s <> "" -> add_separator s = s ++ sep.
Proof.
  intros H. unfold add_separator. destruct (String.eqb_spec s ""); [contradiction | reflexivity].
Qed.

Lemma concat_nil_iff (l : list string) :
  Forall nonempty l -> (String.concat sep l = "" <-> l = []).
Proof.
  intros H. split; [| now intros ->].
  destruct H as [|x l Hx _]; [reflexivity |].
  simpl. destruct l; intros E.
  - contradiction.
  - apply app_eq_nil_s in E. destruct E; contradiction.
Qed.

Lemma concat_snoc (l : list string) (f : string) :
  l <> [] -> String.concat sep (l ++ [f]) = String.concat sep l ++ sep ++ f.
Proof.
  induction l as [|x l IH]; intros H; [contradiction |].
  destruct l as [|y l].
  - reflexivity.
  - change (String.concat sep ((x :: y :: l) ++ [f]))
      with (x ++ sep ++ String.concat sep ((y :: l) ++ [f])).
    rewrite IH by discriminate.
    change (String.concat sep (x :: y :: l)) with (x ++ sep ++ String.concat sep (y :: l)).
    now rewrite !app_assoc_s.
Qed.

(** Appending one more entry to a list of entries built with
    [add_separator]. *)
Lemma push_concat (l : list string) (f : string) :
  Forall nonempty l ->
  add_separator (String.concat sep l) ++ f = String.concat sep (l ++ [f]).
Proof.
  intros H. destruct l as [|x l].
  - reflexivity.
  - rewrite concat_snoc by discriminate.
    rewrite add_separator_cons.
    + now rewrite app_assoc_s.
    + intros E. apply concat_nil_iff in E; [discriminate | assumption].
Qed.

(** ** The loop over the elements of one array *)

Section ArrayLoop.

Variables COLUMN_CASE : string.
Variables (col : string) (e : ElementRow) (n : N).

Lemma simple_fragment_nonempty (a : ArrayRow) : nonempty (simple_fragment (alias_dbl_quote COLUMN_CASE) col e a).
Proof.
  unfold nonempty, simple_fragment. intros E.
  apply app_eq_nil_s in E. destruct E as [_ E]. discriminate E.
Qed.

Lemma object_fragment_nonempty (a : ArrayRow) : nonempty (object_fragment (alias_dbl_quote COLUMN_CASE) col e n a).
Proof. unfold nonempty, object_fragment. discriminate. Qed.

Lemma simple_candidates_nonempty (rows : list ArrayRow) :
  Forall nonempty (simple_candidates (alias_dbl_quote COLUMN_CASE) col e rows).
Proof.
  unfold simple_candidates. apply Forall_forall. intros f Hf.
  apply in_map_iff in Hf. destruct Hf as [a [<- _]]. apply simple_fragment_nonempty.
Qed.

Lemma object_candidates_nonempty (rows : list ArrayRow) :
  Forall nonempty (object_candidates (alias_dbl_quote COLUMN_CASE) col e n rows).
Proof.
  unfold object_candidates. apply Forall_forall. intros f Hf.
  apply in_map_iff in Hf. destruct Hf as [a [<- _]]. apply object_fragment_nonempty.
Qed.

(** One pass of the body on a simple element. *)
Lemma array_body_simple (s o : string) (a : ArrayRow) :
  is_object a = false ->
  array_body COLUMN_CASE col e n (s, o) a
    = (add_separator s ++ simple_fragment (alias_dbl_quote COLUMN_CASE) col e a, o).
Proof.
  unfold is_object, array_body. intros H. apply negb_false_iff in H. rewrite H.
  f_equal. unfold simple_fragment. string_eq.
Qed.

(** One pass of the body on an object element. *)
Lemma array_body_object (s o : string) (a : ArrayRow) :
  is_object a = true ->
  array_body COLUMN_CASE col e n (s, o) a
    = (s, add_separator o ++ object_fragment (alias_dbl_quote COLUMN_CASE) col e n a).
Proof.
  unfold is_object, array_body. intros H. apply negb_true_iff in H. rewrite H.
  f_equal. unfold object_fragment. string_eq.
Qed.

Lemma simple_candidates_snoc (rows : list ArrayRow) (a : ArrayRow) :
  simple_candidates (alias_dbl_quote COLUMN_CASE) col e (rows ++ [a])
    = (simple_candidates (alias_dbl_quote COLUMN_CASE) col e rows
         ++ (if is_object a then [] else [simple_fragment (alias_dbl_quote COLUMN_CASE) col e a]))%list.
Proof.
  unfold simple_candidates. rewrite filter_app, map_app. simpl.
  destruct (is_object a); reflexivity.
Qed.

Lemma object_candidates_snoc (rows : list ArrayRow) (a : ArrayRow) :
  object_candidates (alias_dbl_quote COLUMN_CASE) col e n (rows ++ [a])
    = (object_candidates (alias_dbl_quote COLUMN_CASE) col e n rows
         ++ (if is_object a then [object_fragment (alias_dbl_quote COLUMN_CASE) col e n a] else []))%list.
Proof.
  unfold object_candidates. rewrite filter_app, map_app. simpl.
  destruct (is_object a); reflexivity.
Qed.

(** What the two lists hold once every row of the array statement has
    been seen. *)
Lemma array_loop_spec (rows : list ArrayRow) :
  array_loop COLUMN_CASE col e n rows
    = (String.concat sep (simple_candidates (alias_dbl_quote COLUMN_CASE) col e rows),
       String.concat sep (object_candidates (alias_dbl_quote COLUMN_CASE) col e n rows)).
Proof.
  unfold array_loop.
  induction rows as [|a rows IH] using rev_ind; [reflexivity |].
  rewrite fold_left_app, IH. cbn [fold_left].
  rewrite simple_candidates_snoc, object_candidates_snoc.
  destruct (is_object a) eqn:Ha.
  - rewrite array_body_object by assumption.
    rewrite push_concat by apply object_candidates_nonempty.
    now rewrite app_nil_r.
  - rewrite array_body_simple by assumption.
    rewrite push_concat by apply simple_candidates_nonempty.
    now rewrite app_nil_r.
Qed.

Lemma object_candidates_nil_iff (rows : list ArrayRow) :
  String.concat sep (object_candidates (alias_dbl_quote COLUMN_CASE) col e n rows) = ""
  <-> existsb is_object rows = false.
Proof.
  rewrite concat_nil_iff by apply object_candidates_nonempty.
  unfold object_candidates.
  induction rows as [|a rows IH]; simpl; [tauto |].
  destruct (is_object a); simpl; [split; discriminate | exact IH].
Qed.

End ArrayLoop.

(** ** One entry of the element list *)

Section ElementBody.

Variables COLUMN_CASE COLUMN_TYPE : string.
Variable snowflake : Snowflake.
Variables (col : string) (e : ElementRow) (v : Vars).

(** An entry that is not an ARRAY adds one fragment and nothing else. *)
Lemma element_body_scalar :
  e_type e <> "ARRAY" ->
  element_body COLUMN_CASE COLUMN_TYPE snowflake col e v
  = mkVars (add_separator (col_list v) ++ col ++ ":" ++ e_path e ++ "::" ++ e_type e
              ++ " as " ++ col ++ "_" ++ e_alias e)
           (table_list v) (array_num v).
Proof.
  intros H. unfold element_body.
  destruct (String.eqb_spec (e_type e) "ARRAY"); [contradiction |].
  cbn [negb]. f_equal. string_eq.
Qed.

(** An ARRAY entry whose array has an object element. *)
Lemma element_body_object_array :
  e_type e = "ARRAY" ->
  existsb is_object
    (exec_array snowflake (array_query COLUMN_TYPE (table_list v) col (e_path e))) = true ->
  element_body COLUMN_CASE COLUMN_TYPE snowflake col e v
  = mkVars (add_separator (col_list v)
              ++ String.concat sep
                   (object_candidates (alias_dbl_quote COLUMN_CASE) col e (array_num v + 1)
                      (exec_array snowflake
                         (array_query COLUMN_TYPE (table_list v) col (e_path e)))))
           (table_list v ++ join_source (col ++ ":" ++ e_path e) (array_num v + 1))
           (array_num v + 1).
Proof.
  intros H Hex. unfold element_body. rewrite H.
  rewrite String.eqb_refl. cbn [negb].
  rewrite array_loop_spec.
  match goal with
  | |- context [String.eqb ?x ""] => destruct (String.eqb_spec x "") as [E|E]
  end.
  - apply object_candidates_nil_iff in E. congruence.
  - f_equal. unfold join_source. string_eq.
Qed.

(** An ARRAY entry whose array has no object element. *)
Lemma element_body_simple_array :
  e_type e = "ARRAY" ->
  existsb is_object
    (exec_array snowflake (array_query COLUMN_TYPE (table_list v) col (e_path e))) = false ->
  element_body COLUMN_CASE COLUMN_TYPE snowflake col e v
  = mkVars (add_separator (col_list v)
              ++ String.concat sep
                   (simple_candidates (alias_dbl_quote COLUMN_CASE) col e
                      (exec_array snowflake
                         (array_query COLUMN_TYPE (table_list v) col (e_path e)))))
           (table_list v) (array_num v + 1).
Proof.
  intros H Hex. unfold element_body. rewrite H.
  rewrite String.eqb_refl. cbn [negb].
  rewrite array_loop_spec.
  match goal with
  | |- context [String.eqb ?x ""] => destruct (String.eqb_spec x "") as [E|E]
  end.
  - reflexivity.
  - exfalso. apply E. now apply object_candidates_nil_iff.
Qed.

End ElementBody.

(** ** The ARRAY entries of a run *)

Lemma render_sources_app (a b : list ArrayVisit) :
  render_sources (a ++ b) = render_sources a ++ render_sources b.
Proof.
  induction a as [|w a IH]; cbn [render_sources app]; [reflexivity |].
  now rewrite IH, app_assoc_s.
Qed.

Lemma render_sources_nil_iff (ws : list ArrayVisit) :
  render_sources ws = "" <-> ws = [].
Proof.
  split; [| now intros ->].
  destruct ws as [|w ws]; [reflexivity | discriminate].
Qed.

Lemma ids_after_app (k : N) (a b : nat) :
  ids_after k (a + b) = (ids_after k a ++ ids_after (k + N.of_nat a) b)%list.
Proof.
  revert k. induction a as [|a IH]; intros k.
  - simpl. now rewrite N.add_0_r.
  - cbn [Nat.add ids_after app]. rewrite IH.
    replace (k + N.of_nat (S a))%N with (k + 1 + N.of_nat a)%N by lia.
    reflexivity.
Qed.

Lemma ids_after_nth (k : N) (len i : nat) (x : N) :
  nth_error (ids_after k len) i = Some x -> x = (k + N.of_nat (i + 1))%N.
Proof.
  revert k i. induction len as [|len IH]; intros k i H.
  - destruct i; discriminate.
  - destruct i as [|i]; simpl in H.
    + injection H as <-. lia.
    + apply IH in H. lia.
Qed.

Lemma ids_after_above (k : N) (len : nat) :
  Forall (fun x => (k < x)%N) (ids_after k len).
Proof.
  revert k. induction len as [|len IH]; intros k; simpl; constructor.
  - lia.
  - eapply Forall_impl; [| apply IH]. simpl. intros; lia.
Qed.

Lemma ids_after_sorted (k : N) (len : nat) : StronglySorted N.lt (ids_after k len).
Proof.
  revert k. induction len as [|len IH]; intros k; simpl; constructor.
  - apply IH.
  - apply ids_after_above.
Qed.

Lemma sorted_map_filter {A : Type} (g : A -> N) (f : A -> bool) (l : list A) :
  StronglySorted N.lt (map g l) -> StronglySorted N.lt (map g (filter f l)).
Proof.
  induction l as [|a l IH]; simpl; intros H; [constructor |].
  inversion H as [|x xs Hs Hall]; subst.
  destruct (f a); simpl; [constructor |]; auto.
  rewrite Forall_forall in *. intros y Hy.
  apply in_map_iff in Hy. destruct Hy as [b [<- Hb]].
  apply filter_In in Hb. apply Hall, in_map, Hb.
Qed.

Lemma trace_ok_refl (v : Vars) : trace_ok v [] v.
Proof.
  unfold trace_ok. simpl. rewrite app_nil_r_s, N.add_0_r. auto.
Qed.

Lemma trace_ok_trans (v1 v2 v3 : Vars) (a b : list ArrayVisit) :
  trace_ok v1 a v2 -> trace_ok v2 b v3 -> trace_ok v1 (a ++ b) v3.
Proof.
  unfold trace_ok. intros (T1 & N1 & I1) (T2 & N2 & I2).
  rewrite filter_app, render_sources_app, length_app, map_app, ids_after_app.
  rewrite T2, T1, N2, N1, I1, I2, N1. repeat split.
  - now rewrite app_assoc_s.
  - lia.
Qed.

Section Run.

Variables SCHEMA_NAME V_TAB_NM COLUMN_CASE COLUMN_TYPE DATA_BASE : string.
Variable snowflake : Snowflake.

Lemma element_body_trace (col : string) (e : ElementRow) (v : Vars) :
  trace_ok v (element_visit COLUMN_TYPE snowflake col e v)
    (element_body COLUMN_CASE COLUMN_TYPE snowflake col e v).
Proof.
  unfold element_visit.
  destruct (String.eqb_spec (e_type e) "ARRAY") as [E|E]; cbn [negb].
  - set (rows := exec_array snowflake
                   (array_query COLUMN_TYPE (table_list v) col (e_path e))).
    unfold trace_ok. cbn [filter has_object v_rows List.length map v_id ids_after].
    fold rows. destruct (existsb is_object rows) eqn:Hex.
    + rewrite (element_body_object_array _ _ _ _ _ _ E Hex).
      unfold has_object. cbn [table_list array_num v_rows]. rewrite Hex.
      cbn [render_sources]. unfold source_of. cbn [v_col v_path v_id].
      rewrite app_nil_r_s. repeat split.
    + rewrite (element_body_simple_array _ _ _ _ _ _ E Hex).
      unfold has_object. cbn [table_list array_num v_rows]. rewrite Hex.
      cbn [render_sources]. rewrite app_nil_r_s. repeat split.
  - rewrite (element_body_scalar _ _ _ _ _ _ E). unfold trace_ok. simpl.
    rewrite app_nil_r_s, N.add_0_r. auto.
Qed.

Lemma element_loop_trace (col : string) (rows : list ElementRow) (v : Vars) :
  trace_ok v (element_visits COLUMN_CASE COLUMN_TYPE snowflake col rows v)
    (element_loop COLUMN_CASE COLUMN_TYPE snowflake col rows v).
Proof.
  revert v. induction rows as [|e rows IH]; intros v; simpl.
  - apply trace_ok_refl.
  - destruct (e_path e =? ""); cbn [negb].
    + apply trace_ok_refl.
    + eapply trace_ok_trans; [apply element_body_trace | apply IH].
Qed.

Lemma column_body_trace (v : Vars) (c : ColumnRow) :
  trace_ok v (column_visits COLUMN_CASE COLUMN_TYPE snowflake v c)
    (column_body COLUMN_CASE COLUMN_TYPE snowflake v c).
Proof.
  unfold column_visits, column_body. destruct (c_type c =? "VARIANT").
  - apply element_loop_trace.
  - unfold trace_ok. simpl. rewrite app_nil_r_s, N.add_0_r. auto.
Qed.

Lemma columns_trace (rows : list ColumnRow) (v : Vars) :
  trace_ok v (columns_visits COLUMN_CASE COLUMN_TYPE snowflake rows v)
    (fold_left (column_body COLUMN_CASE COLUMN_TYPE snowflake) rows v).
Proof.
  revert v. induction rows as [|c rows IH]; intros v; simpl.
  - apply trace_ok_refl.
  - eapply trace_ok_trans; [apply column_body_trace | apply IH].
Qed.

Lemma final_trace :
  trace_ok (initial SCHEMA_NAME V_TAB_NM)
    (visits SCHEMA_NAME V_TAB_NM COLUMN_CASE COLUMN_TYPE DATA_BASE snowflake)
    (final DATA_BASE SCHEMA_NAME V_TAB_NM COLUMN_CASE COLUMN_TYPE snowflake).
Proof. apply columns_trace. Qed.

End Run.

(** ** The decision taken for one array *)

(** C1.  For an ARRAY entry, once every row of its array statement has gone
    through the loop: the array takes the next id; when some row is an
    object element, the projection list receives exactly the object
    candidates (no simple candidate) and the table list receives one
    LATERAL FLATTEN of [col:path] named by that id; when no row is an
    object element, the projection list receives exactly the simple
    candidates and the table list is unchanged. *)
Theorem array_decision (COLUMN_CASE COLUMN_TYPE : string) (snowflake : Snowflake)
    (col : string) (e : ElementRow) (v : Vars) :
  e_type e = "ARRAY" ->
  let q := alias_dbl_quote COLUMN_CASE in
  let n := (array_num v + 1)%N in
  let rows := exec_array snowflake (array_query COLUMN_TYPE (table_list v) col (e_path e)) in
  let v' := element_body COLUMN_CASE COLUMN_TYPE snowflake col e v in
  array_num v' = n
  /\ (existsb is_object rows = true ->
        col_list v' = add_separator (col_list v)
                        ++ String.concat sep (object_candidates q col e n rows)
        /\ table_list v' = table_list v ++ join_source (col ++ ":" ++ e_path e) n)
  /\ (existsb is_object rows = false ->
        col_list v' = add_separator (col_list v)
                        ++ String.concat sep (simple_candidates q col e rows)
        /\ table_list v' = table_list v).
Proof.
  intros H q n rows v'. subst v'. split; [| split].
  - destruct (existsb is_object rows) eqn:Hex.
    + now rewrite (element_body_object_array _ _ _ _ _ _ H Hex).
    + now rewrite (element_body_simple_array _ _ _ _ _ _ H Hex).
  - intros Hex. rewrite (element_body_object_array _ _ _ _ _ _ H Hex). now split.
  - intros Hex. rewrite (element_body_simple_array _ _ _ _ _ _ H Hex). now split.
Qed.

(** The array [contact.phone] of the sample table has one simple element and
    two object members: one source, two fragments, the simple one dropped. *)
Lemma array_decision_witness :
  let v' := element_body "uppercase cols" "match datatypes" (Sample.json_table [])
              "json_data" Sample.contact_phone Sample.one_column in
  e_type Sample.contact_phone = "ARRAY"
  /\ array_num v' = 1%N
  /\ col_list v' = "ID" ++ sep
       ++ "a1.value:" ++ Sample.key "type" ++ "::STRING as json_data_contact_phone_type" ++ sep
       ++ "a1.value:" ++ Sample.key "number" ++ "::STRING as json_data_contact_phone_number"
  /\ table_list v' = "PUBLIC.CONTACTS," ++ Js.nl ++ " LATERAL FLATTEN(json_data:"
       ++ Sample.key "contact" ++ "." ++ Sample.key "phone" ++ ") a1".
Proof.
  intros v'.
  destruct (array_decision "uppercase cols" "match datatypes" (Sample.json_table [])
              "json_data" Sample.contact_phone Sample.one_column eq_refl)
    as (Hn & Hobj & _).
  destruct (Hobj eq_refl) as [Hc Ht].
  split; [reflexivity |]. split; [exact Hn |]. split; [exact Hc | exact Ht].
Defined.

(** C8.  An array element whose path, without its leading character, is not
    empty adds to the object list the text [a<n>.value:], the path without
    its leading character, [::], the type, and as alias the column, an
    underscore, the alias of the array and the alias of the member, the
    last two with nothing between them. *)
Theorem object_fragment_format (COLUMN_CASE col : string) (e : ElementRow) (n : N)
    (simple object : string) (a : ArrayRow) :
  Js.substring1 (a_path a) <> "" ->
  array_body COLUMN_CASE col e n (simple, object) a
    = (simple,
       add_separator object
         ++ "a" ++ Js.of_num n ++ ".value:" ++ Js.substring1 (a_path a)
         ++ "::" ++ a_type a
         ++ " as " ++ alias_dbl_quote COLUMN_CASE
         ++ col ++ "_" ++ e_alias e ++ a_alias a
         ++ alias_dbl_quote COLUMN_CASE).
Proof.
  intros H. apply array_body_object. unfold is_object.
  now destruct (String.eqb_spec (Js.substring1 (a_path a)) "").
Qed.

Lemma object_fragment_format_witness :
  Js.substring1 ("." ++ Sample.key "type") <> ""
  /\ array_body "uppercase cols" "json_data" Sample.contact_phone 1 ("", "")
       (mkArrayRow ("." ++ Sample.key "type") "STRING" "_type" None)
     = ("", "a1.value:" ++ Sample.key "type" ++ "::STRING as json_data_contact_phone_type").
Proof.
  split; [discriminate |].
  apply (object_fragment_format "uppercase cols" "json_data" Sample.contact_phone 1 "" ""
           (mkArrayRow ("." ++ Sample.key "type") "STRING" "_type" None)).
  discriminate.
Defined.

(** C9.  An ARRAY entry whose array statement returns no row, met when the
    projection list is not empty, appends the separator and nothing after
    it; the table list is unchanged and the id is used up. *)
Theorem empty_array_dangling_separator (COLUMN_CASE COLUMN_TYPE : string)
    (snowflake : Snowflake) (col : string) (e : ElementRow) (v : Vars) :
  e_type e = "ARRAY" ->
  exec_array snowflake (array_query COLUMN_TYPE (table_list v) col (e_path e)) = [] ->
  col_list v <> "" ->
  element_body COLUMN_CASE COLUMN_TYPE snowflake col e v
    = mkVars (col_list v ++ ", " ++ Js.nl) (table_list v) (array_num v + 1).
Proof.
  intros H Hrows Hc.
  rewrite (element_body_simple_array _ _ _ _ _ _ H) by now rewrite Hrows.
  rewrite Hrows. cbn [simple_candidates filter map String.concat].
  rewrite add_separator_cons by assumption. now rewrite app_nil_r_s.
Qed.

Lemma empty_array_dangling_separator_witness :
  e_type Sample.tags = "ARRAY"
  /\ col_list Sample.one_column <> ""
  /\ element_body "uppercase cols" "match datatypes" (Sample.json_table [])
       "json_data" Sample.tags Sample.one_column
     = mkVars ("ID, " ++ Js.nl) "PUBLIC.CONTACTS" 1.
Proof.
  split; [reflexivity |]. split; [discriminate |].
  apply (empty_array_dangling_separator "uppercase cols" "match datatypes"
           (Sample.json_table []) "json_data" Sample.tags Sample.one_column).
  - reflexivity.
  - reflexivity.
  - discriminate.
Defined.

(** The whole statement for a table whose only array is empty: the
    projection list ends with a separator. *)
Lemma empty_array_view :
  view_ddl "DB" "PUBLIC" "CONTACTS" "uppercase cols" "match datatypes"
    (Sample.json_table [Sample.tags])
  = "CREATE OR REPLACE VIEW CONTACTS_VW AS " ++ Js.nl ++ "SELECT " ++ Js.nl
      ++ "ID, " ++ Js.nl ++ Js.nl ++ "FROM PUBLIC.CONTACTS".
Proof. reflexivity. Qed.

(** ** Tables without VARIANT columns *)

(** The loop over catalog rows none of which is a VARIANT, started with a
    projection list that already holds the entries [l]. *)
Lemma scalar_columns_loop (COLUMN_CASE COLUMN_TYPE : string) (snowflake : Snowflake)
    (rows : list ColumnRow) (l : list string) (t : string) (k : N) :
  Forall (fun c => c_type c <> "VARIANT") rows ->
  Forall (fun c => c_name c <> "") rows ->
  Forall nonempty l ->
  fold_left (column_body COLUMN_CASE COLUMN_TYPE snowflake) rows
    (mkVars (String.concat sep l) t k)
  = mkVars (String.concat sep (l ++ map c_name rows)) t k.
Proof.
  intros Ht Hn. revert l.
  induction rows as [|c rows IH]; intros l Hl; cbn [fold_left map].
  - now rewrite app_nil_r.
  - inversion Ht as [|? ? Htc Ht']; inversion Hn as [|? ? Hnc Hn']; subst.
    unfold column_body at 2.
    destruct (String.eqb_spec (c_type c) "VARIANT"); [contradiction |].
    cbn [col_list table_list array_num].
    rewrite push_concat by assumption.
    rewrite IH; try assumption.
    + now rewrite <- app_assoc.
    + apply Forall_app. split; [assumption | constructor; [exact Hnc | constructor]].
Qed.

(** C4.  When no row of the catalog result is a VARIANT, the projection
    list is the column names in the order of the result, separated by the
    separator and with nothing added to any of them, and the FROM clause
    is the table alone.  Column names are identifiers, hence not empty. *)
Theorem scalar_passthrough (DATA_BASE SCHEMA_NAME V_TAB_NM COLUMN_CASE COLUMN_TYPE : string)
    (snowflake : Snowflake) :
  let rows := exec_columns snowflake (sqlMetaQryBld DATA_BASE SCHEMA_NAME V_TAB_NM) in
  let result := final DATA_BASE SCHEMA_NAME V_TAB_NM COLUMN_CASE COLUMN_TYPE snowflake in
  Forall (fun c => c_type c <> "VARIANT") rows ->
  Forall (fun c => c_name c <> "") rows ->
  col_list result = String.concat sep (map c_name rows)
  /\ table_list result = SCHEMA_NAME ++ "." ++ V_TAB_NM
  /\ view_ddl DATA_BASE SCHEMA_NAME V_TAB_NM COLUMN_CASE COLUMN_TYPE snowflake
     = "CREATE OR REPLACE VIEW " ++ V_TAB_NM ++ "_VW AS " ++ Js.nl
         ++ "SELECT " ++ Js.nl ++ String.concat sep (map c_name rows) ++ Js.nl
         ++ "FROM " ++ SCHEMA_NAME ++ "." ++ V_TAB_NM.
Proof.
  intros rows result Ht Hn.
  assert (E : result = mkVars (String.concat sep (map c_name rows))
                         (SCHEMA_NAME ++ "." ++ V_TAB_NM) 0).
  { unfold result, final, column_loop, initial. fold rows.
    change "" with (String.concat sep []) at 1.
    now rewrite scalar_columns_loop by (assumption || constructor). }
  unfold view_ddl. fold result. rewrite E. repeat split.
Qed.

Lemma scalar_passthrough_witness :
  view_ddl "DB" "PUBLIC" "CITIES" "uppercase cols" "match datatypes" Sample.scalar_table
  = "CREATE OR REPLACE VIEW CITIES_VW AS " ++ Js.nl ++ "SELECT " ++ Js.nl
      ++ "ID, " ++ Js.nl ++ "CITY, " ++ Js.nl ++ "CREATED" ++ Js.nl
      ++ "FROM PUBLIC.CITIES".
Proof.
  apply (scalar_passthrough "DB" "PUBLIC" "CITIES" "uppercase cols" "match datatypes"
           Sample.scalar_table).
  - repeat constructor; discriminate.
  - repeat constructor; discriminate.
Defined.

(** ** Auxiliary sources and array ids *)

(** C6.  The table list of a run is the base table followed by one source
    per visited array that has an object element, in order; so it holds an
    auxiliary source exactly when some visited array has an object
    element.  An array without object elements adds its indexed fragments
    to the projection list and leaves the table list as it was. *)
Theorem auxiliary_sources_iff (DATA_BASE SCHEMA_NAME V_TAB_NM COLUMN_CASE COLUMN_TYPE : string)
    (snowflake : Snowflake) :
  let base := SCHEMA_NAME ++ "." ++ V_TAB_NM in
  let result := final DATA_BASE SCHEMA_NAME V_TAB_NM COLUMN_CASE COLUMN_TYPE snowflake in
  let arrays := visits SCHEMA_NAME V_TAB_NM COLUMN_CASE COLUMN_TYPE DATA_BASE snowflake in
  table_list result = base ++ render_sources (filter has_object arrays)
  /\ (table_list result <> base <-> exists w, In w arrays /\ has_object w = true)
  /\ (forall (col : string) (e : ElementRow) (v : Vars),
        e_type e = "ARRAY" ->
        existsb is_object
          (exec_array snowflake (array_query COLUMN_TYPE (table_list v) col (e_path e)))
          = false ->
        let v' := element_body COLUMN_CASE COLUMN_TYPE snowflake col e v in
        table_list v' = table_list v
        /\ col_list v' = add_separator (col_list v)
             ++ String.concat sep
                  (simple_candidates (alias_dbl_quote COLUMN_CASE) col e
                     (exec_array snowflake
                        (array_query COLUMN_TYPE (table_list v) col (e_path e))))).
Proof.
  intros base result arrays.
  destruct (final_trace SCHEMA_NAME V_TAB_NM COLUMN_CASE COLUMN_TYPE DATA_BASE snowflake)
    as (T & _ & _).
  fold result arrays in T. cbn [initial table_list] in T. fold base in T.
  split; [exact T |]. split.
  - rewrite T. split.
    + intros Hne. destruct (filter has_object arrays) as [|w ws] eqn:F.
      * exfalso. apply Hne. simpl. apply app_nil_r_s.
      * exists w. apply filter_In. rewrite F. now left.
    + intros (w & Hin & Hw) E. apply app_eq_self, render_sources_nil_iff in E.
      assert (Hf : In w (filter has_object arrays)) by now apply filter_In.
      rewrite E in Hf. destruct Hf.
  - intros col e v He Hex v'. subst v'.
    rewrite (element_body_simple_array _ _ _ _ _ _ He Hex). split; reflexivity.
Qed.

(** The array [code.rgb] of the sample table has three simple elements. *)
Lemma auxiliary_sources_iff_witness :
  let v' := element_body "uppercase cols" "match datatypes" (Sample.json_table [])
              "json_data" Sample.code_rgb Sample.one_column in
  table_list v' = "PUBLIC.CONTACTS"
  /\ col_list v' = "ID" ++ sep
       ++ "json_data:" ++ Sample.key "code" ++ "." ++ Sample.key "rgb"
       ++ "[0]::FLOAT as json_data_code_rgb_0" ++ sep
       ++ "json_data:" ++ Sample.key "code" ++ "." ++ Sample.key "rgb"
       ++ "[1]::FLOAT as json_data_code_rgb_1" ++ sep
       ++ "json_data:" ++ Sample.key "code" ++ "." ++ Sample.key "rgb"
       ++ "[2]::FLOAT as json_data_code_rgb_2".
Proof.
  intros v'.
  destruct (auxiliary_sources_iff "DB" "PUBLIC" "CONTACTS" "uppercase cols"
              "match datatypes" (Sample.json_table [])) as (_ & _ & H).
  exact (H "json_data" Sample.code_rgb Sample.one_column eq_refl eq_refl).
Defined.

(** C7.  The counter starts at zero; one pass of the element loop body adds
    one to it for an ARRAY entry and leaves it alone otherwise; the array
    met in position [i] (from zero) has id [i + 1]; the counter ends at the
    number of arrays met; and the ids of the auxiliary sources increase
    strictly in the order of their registration. *)
Theorem array_ids_increase (DATA_BASE SCHEMA_NAME V_TAB_NM COLUMN_CASE COLUMN_TYPE : string)
    (snowflake : Snowflake) :
  let result := final DATA_BASE SCHEMA_NAME V_TAB_NM COLUMN_CASE COLUMN_TYPE snowflake in
  let arrays := visits SCHEMA_NAME V_TAB_NM COLUMN_CASE COLUMN_TYPE DATA_BASE snowflake in
  array_num (initial SCHEMA_NAME V_TAB_NM) = 0%N
  /\ (forall (col : string) (e : ElementRow) (v : Vars),
        array_num (element_body COLUMN_CASE COLUMN_TYPE snowflake col e v)
        = if e_type e =? "ARRAY" then (array_num v + 1)%N else array_num v)
  /\ (forall (i : nat) (w : ArrayVisit),
        nth_error arrays i = Some w -> v_id w = N.of_nat (i + 1))
  /\ array_num result = N.of_nat (List.length arrays)
  /\ StronglySorted N.lt
       (map v_id (auxiliary_sources SCHEMA_NAME V_TAB_NM COLUMN_CASE COLUMN_TYPE
                    DATA_BASE snowflake)).
Proof.
  intros result arrays.
  destruct (final_trace SCHEMA_NAME V_TAB_NM COLUMN_CASE COLUMN_TYPE DATA_BASE snowflake)
    as (_ & Hn & Hi).
  fold result arrays in Hn, Hi. cbn [initial array_num] in Hn, Hi.
  split; [reflexivity |]. split; [| split; [| split]].
  - intros col e v.
    destruct (element_body_trace COLUMN_CASE COLUMN_TYPE snowflake col e v) as (_ & H & _).
    rewrite H. unfold element_visit.
    destruct (e_type e =? "ARRAY"); simpl; lia.
  - intros i w Hw. apply (map_nth_error v_id) in Hw. rewrite Hi in Hw.
    apply ids_after_nth in Hw. lia.
  - rewrite Hn. lia.
  - unfold auxiliary_sources. fold arrays. apply sorted_map_filter.
    rewrite Hi. apply ids_after_sorted.
Qed.

Lemma array_ids_increase_witness :
  map v_id (visits "PUBLIC" "CONTACTS" "uppercase cols" "match datatypes" "DB"
              (Sample.json_table [Sample.code_rgb; Sample.name_first; Sample.contact_phone]))
    = [1%N; 2%N]
  /\ v_id (mkArrayVisit "json_data" (e_path Sample.contact_phone) 2 Sample.phone_rows) = 2%N.
Proof.
  split; [reflexivity |].
  destruct (array_ids_increase "DB" "PUBLIC" "CONTACTS" "uppercase cols" "match datatypes"
              (Sample.json_table [Sample.code_rgb; Sample.name_first; Sample.contact_phone]))
    as (_ & _ & H & _).
  exact (H 1%nat _ eq_refl).
Defined.

(** ** The two mode parameters *)

Ltac split_byte c := destruct c as [[] [] [] [] [] [] [] []].

Ltac first_character s :=
  let c := fresh "c" in
  let r := fresh "r" in
  destruct s as [|c r]; [reflexivity |]; split_byte c; try reflexivity.

(** The test of line 83. *)
Lemma upper_first_M (s : string) :
  (Js.charAt0 (Js.toUpperCase s) =? "M") = starts_with "M" "m" s.
Proof.
  first_character s; first_character r; first_character r0.
Qed.

(** The test of line 85. *)
Lemma upper_first_S (s : string) :
  (Js.charAt0 (Js.toUpperCase s) =? "S") = string_types s.
Proof.
  first_character s; first_character r; first_character r0.
Qed.

Lemma starts_with_string_types (s : string) :
  starts_with "S" "s" s = true -> string_types s = true.
Proof. intros H. unfold string_types. now rewrite H. Qed.

(** C10, as the code has it.  Each mode is chosen by the first character
    of its parameter and by nothing else.  The aliases are quoted exactly
    when COLUMN_CASE starts with M or m.  The string-only type expression
    is used exactly when the upper case of the first character of
    COLUMN_TYPE starts with S: when that character is S or s, and also
    when it is U+00DF, U+017F, U+FB05 or U+FB06.  Every other value, the
    empty string too, gives the other mode. *)
Theorem mode_selection (COLUMN_CASE COLUMN_TYPE : string) :
  alias_dbl_quote COLUMN_CASE
    = (if starts_with "M" "m" COLUMN_CASE then Js.dquote else "")
  /\ attribute_type COLUMN_TYPE
    = (if starts_with "S" "s" COLUMN_TYPE
          || begins Js.sharp_s COLUMN_TYPE || begins Js.long_s COLUMN_TYPE
          || begins Js.long_s_t COLUMN_TYPE || begins Js.s_t COLUMN_TYPE
       then "DECODE (typeof(f.value),'ARRAY','ARRAY','STRING')"
       else "DECODE (substr(typeof(f.value),1,1),'A','ARRAY','B','BOOLEAN','I','FLOAT','D','FLOAT','STRING')").
Proof.
  unfold alias_dbl_quote, attribute_type.
  rewrite upper_first_M, upper_first_S.
  split; reflexivity.
Qed.

(** C10, as stated, fails: a COLUMN_TYPE that starts with a sharp s starts
    with neither S nor s, and yet selects the string-only type expression,
    because the upper case of the sharp s is SS. *)
Lemma sharp_s_selects_string_types :
  starts_with "S" "s" (Js.sharp_s ++ "tring datatypes") = false
  /\ attribute_type (Js.sharp_s ++ "tring datatypes")
     = "DECODE (typeof(f.value),'ARRAY','ARRAY','STRING')"
  /\ attribute_type (Js.sharp_s ++ "tring datatypes")
     <> "DECODE (substr(typeof(f.value),1,1),'A','ARRAY','B','BOOLEAN','I','FLOAT','D','FLOAT','STRING')".
Proof. repeat split. discriminate. Qed.

(** ** The type policy *)

Lemma attribute_type_parsed (COLUMN_TYPE : string) :
  Sql.render (attribute_type_sql COLUMN_TYPE) = attribute_type COLUMN_TYPE.
Proof.
  unfold attribute_type_sql, attribute_type.
  destruct (Js.charAt0 (Js.toUpperCase COLUMN_TYPE) =? "S"); reflexivity.
Qed.

Lemma substring_first (t : string) : substring 0 1 t = Js.charAt0 t.
Proof. destruct t as [|c [|d r]]; reflexivity. Qed.

(** C5, as the code has it.  The text of the type expression is the printed
    form of [attribute_type_sql].  With a COLUMN_TYPE that selects string
    types (one starting with S or s, or with one of the four characters
    whose upper case starts with S) it maps ARRAY to ARRAY and every other
    reported type to STRING.  With any other COLUMN_TYPE it looks at the
    first character of the reported type: A gives ARRAY, B gives BOOLEAN,
    I and D give FLOAT, and everything else gives STRING. *)
Theorem type_policy (COLUMN_TYPE t : string) :
  Sql.render (attribute_type_sql COLUMN_TYPE) = attribute_type COLUMN_TYPE
  /\ (string_types COLUMN_TYPE = true ->
        Sql.eval (attribute_type_sql COLUMN_TYPE) t
        = if t =? "ARRAY" then "ARRAY" else "STRING")
  /\ (string_types COLUMN_TYPE = false ->
        Sql.eval (attribute_type_sql COLUMN_TYPE) t
        = match t with
          | String "A" _ => "ARRAY"
          | String "B" _ => "BOOLEAN"
          | String "I" _ | String "D" _ => "FLOAT"
          | _ => "STRING"
          end).
Proof.
  split; [apply attribute_type_parsed |].
  unfold attribute_type_sql.
  rewrite upper_first_S.
  split; intros ->.
  - reflexivity.
  - unfold Sql.eval. cbn [Sql.d_subject Sql.d_cases Sql.d_default Sql.eval_subject Nat.sub].
    rewrite substring_first. destruct t as [|c r]; [reflexivity |].
    cbn [Js.charAt0].
    destruct c as [[] [] [] [] [] [] [] []]; reflexivity.
Qed.

Lemma type_policy_witness :
  Sql.eval (attribute_type_sql "string datatypes") "INTEGER" = "STRING"
  /\ Sql.eval (attribute_type_sql "match datatypes") "DOUBLE" = "FLOAT".
Proof.
  split.
  - apply (type_policy "string datatypes" "INTEGER"). reflexivity.
  - apply (type_policy "match datatypes" "DOUBLE"). reflexivity.
Defined.

(** C5, as stated, fails: under [match datatypes] a value whose reported
    type is INTEGER is given the type FLOAT. *)
Lemma match_types_not_identity :
  starts_with "S" "s" "match datatypes" = false
  /\ Sql.eval (attribute_type_sql "match datatypes") "INTEGER" = "FLOAT"
  /\ Sql.eval (attribute_type_sql "match datatypes") "INTEGER" <> "INTEGER".
Proof. repeat split. discriminate. Qed.

(** ** Aliases of the entries that are not arrays *)

(** C2: the code at a failing input.  With COLUMN_CASE set to
    [match col case] the quote character is selected, and the aliases of
    the array fragments carry it, but the alias of a path that is not an
    array is written without it. *)
Theorem leaf_alias_not_quoted :
  alias_dbl_quote "match col case" = Js.dquote
  /\ col_list (final "DB" "PUBLIC" "CONTACTS" "match col case" "match datatypes"
                 (Sample.json_table [Sample.name_first; Sample.code_rgb]))
     = "ID" ++ sep
       ++ "json_data:" ++ Sample.key "name" ++ "." ++ Sample.key "first"
       ++ "::STRING as json_data_name_first" ++ sep
       ++ "json_data:" ++ Sample.key "code" ++ "." ++ Sample.key "rgb"
       ++ "[0]::FLOAT as " ++ Sample.key "json_data_code_rgb_0" ++ sep
       ++ "json_data:" ++ Sample.key "code" ++ "." ++ Sample.key "rgb"
       ++ "[1]::FLOAT as " ++ Sample.key "json_data_code_rgb_1" ++ sep
       ++ "json_data:" ++ Sample.key "code" ++ "." ++ Sample.key "rgb"
       ++ "[2]::FLOAT as " ++ Sample.key "json_data_code_rgb_2".
Proof. split; reflexivity. Qed.

(** The fragment of an entry that is not an array is the same for every
    COLUMN_CASE. *)
Lemma leaf_fragment_ignores_case (c1 c2 COLUMN_TYPE : string) (snowflake : Snowflake)
    (col : string) (e : ElementRow) (v : Vars) :
  e_type e <> "ARRAY" ->
  element_body c1 COLUMN_TYPE snowflake col e v
  = element_body c2 COLUMN_TYPE snowflake col e v.
Proof.
  intros H. now rewrite !(element_body_scalar _ _ _ _ _ _ H).
Qed.

(** ** Entries with an empty path *)

(** A row with an empty path ends the loop: the rows after it are not
    looked at. *)
Lemma empty_path_ends_loop (COLUMN_CASE COLUMN_TYPE : string) (snowflake : Snowflake)
    (col : string) (e : ElementRow) (rest : list ElementRow) (v : Vars) :
  e_path e = "" ->
  element_loop COLUMN_CASE COLUMN_TYPE snowflake col (e :: rest) v = v.
Proof. intros H. simpl. now rewrite H. Qed.

(** C3: the code at a failing input.  The same three entries in two orders:
    with the empty path last the two named paths are projected, with the
    empty path first nothing of the column is projected. *)
Theorem empty_path_position_matters :
  col_list (final "DB" "PUBLIC" "CONTACTS" "uppercase cols" "match datatypes"
              (Sample.json_table [Sample.name_first; Sample.name_last; Sample.root_value]))
    = "ID" ++ sep
      ++ "json_data:" ++ Sample.key "name" ++ "." ++ Sample.key "first"
      ++ "::STRING as json_data_name_first" ++ sep
      ++ "json_data:" ++ Sample.key "name" ++ "." ++ Sample.key "last"
      ++ "::STRING as json_data_name_last"
  /\ col_list (final "DB" "PUBLIC" "CONTACTS" "uppercase cols" "match datatypes"
                 (Sample.json_table [Sample.root_value; Sample.name_first; Sample.name_last]))
    = "ID".
Proof. split; reflexivity. Qed.


(** ** Fragments of single rows *)

(** X1.  An element row whose type is not ARRAY adds exactly one entry,
    [col:path::type as col_alias], whose alias carries no quote whatever
    COLUMN_CASE is; the table list and the array counter stay as they
    were. *)
Theorem leaf_fragment_format (COLUMN_CASE COLUMN_TYPE : string) (snowflake : Snowflake)
    (col : string) (e : ElementRow) (v : Vars) :
  e_type e <> "ARRAY" ->
  element_body COLUMN_CASE COLUMN_TYPE snowflake col e v
  = mkVars (add_separator (col_list v)
              ++ col ++ ":" ++ e_path e ++ "::" ++ e_type e
              ++ " as " ++ col ++ "_" ++ e_alias e)
           (table_list v) (array_num v).
Proof. intros H. now apply element_body_scalar. Qed.

Lemma leaf_fragment_format_witness :
  e_type Sample.name_first <> "ARRAY"
  /\ element_body "match col case" "match datatypes" (Sample.json_table []) "json_data"
       Sample.name_first Sample.one_column
     = mkVars ("ID" ++ sep ++ "json_data:" ++ Sample.key "name" ++ "." ++ Sample.key "first"
                 ++ "::STRING as json_data_name_first")
              "PUBLIC.CONTACTS" 0.
Proof.
  split; [discriminate |].
  apply (leaf_fragment_format "match col case" "match datatypes" (Sample.json_table [])
           "json_data" Sample.name_first Sample.one_column).
  discriminate.
Defined.

(** X2.  An array row whose path, without its first character, is empty
    adds to the simple list the text [col:path[index]::type] and as alias
    the column, the alias of the array and the index joined by
    underscores; the index is printed as a number, or as [null] when the
    row has none.  The object list stays as it was. *)
Theorem simple_fragment_format (COLUMN_CASE col : string) (e : ElementRow) (n : N)
    (simple object : string) (a : ArrayRow) :
  Js.substring1 (a_path a) = "" ->
  array_body COLUMN_CASE col e n (simple, object) a
    = (add_separator simple
         ++ col ++ ":" ++ e_path e
         ++ "[" ++ Js.of_value (a_index a) ++ "]"
         ++ "::" ++ a_type a
         ++ " as " ++ alias_dbl_quote COLUMN_CASE
         ++ col ++ "_" ++ e_alias e ++ "_" ++ Js.of_value (a_index a)
         ++ alias_dbl_quote COLUMN_CASE,
       object).
Proof.
  intros H. apply array_body_simple. unfold is_object. now rewrite H.
Qed.

Lemma simple_fragment_format_witness :
  Js.substring1 (a_path (mkArrayRow "" "FLOAT" "" None)) = ""
  /\ array_body "uppercase cols" "json_data" Sample.code_rgb 1 ("", "")
       (mkArrayRow "" "FLOAT" "" None)
     = ("json_data:" ++ Sample.key "code" ++ "." ++ Sample.key "rgb"
          ++ "[null]::FLOAT as json_data_code_rgb_null", "").
Proof.
  split; [reflexivity |].
  apply (simple_fragment_format "uppercase cols" "json_data" Sample.code_rgb 1 "" ""
           (mkArrayRow "" "FLOAT" "" None)).
  reflexivity.
Defined.

(** X3.  The aliases of array fragments follow COLUMN_CASE: when it starts
    with M or m the alias of a simple and of an object fragment stands
    between two double quotes, otherwise it is written bare. *)
Theorem array_alias_quoting (COLUMN_CASE col : string) (e : ElementRow) (n : N)
    (simple object : string) (a : ArrayRow) :
  let quoted (q : string) :=
    if is_object a
    then (simple,
          add_separator object
            ++ "a" ++ Js.of_num n ++ ".value:" ++ Js.substring1 (a_path a)
            ++ "::" ++ a_type a
            ++ " as " ++ q ++ col ++ "_" ++ e_alias e ++ a_alias a ++ q)
    else (add_separator simple
            ++ col ++ ":" ++ e_path e ++ "[" ++ Js.of_value (a_index a) ++ "]"
            ++ "::" ++ a_type a
            ++ " as " ++ q ++ col ++ "_" ++ e_alias e ++ "_" ++ Js.of_value (a_index a) ++ q,
          object) in
  (starts_with "M" "m" COLUMN_CASE = true ->
     array_body COLUMN_CASE col e n (simple, object) a = quoted Js.dquote)
  /\ (starts_with "M" "m" COLUMN_CASE = false ->
        array_body COLUMN_CASE col e n (simple, object) a = quoted "").
Proof.
  intros quoted.
  assert (Q : alias_dbl_quote COLUMN_CASE
              = if starts_with "M" "m" COLUMN_CASE then Js.dquote else "").
  { unfold alias_dbl_quote.
    now rewrite upper_first_M. }
  assert (B : array_body COLUMN_CASE col e n (simple, object) a
              = quoted (alias_dbl_quote COLUMN_CASE)).
  { unfold quoted. destruct (is_object a) eqn:Ha.
    - rewrite array_body_object by assumption. reflexivity.
    - rewrite array_body_simple by assumption. reflexivity. }
  split; intros H; rewrite B, Q, H; reflexivity.
Qed.

Lemma array_alias_quoting_witness :
  array_body "Match col case" "json_data" Sample.code_rgb 1 ("", "")
    (mkArrayRow "" "FLOAT" "" (Some 0%N))
  = ("json_data:" ++ Sample.key "code" ++ "." ++ Sample.key "rgb"
       ++ "[0]::FLOAT as " ++ Sample.key "json_data_code_rgb_0", "")
  /\ array_body "uppercase cols" "json_data" Sample.contact_phone 1 ("", "")
       (mkArrayRow ("." ++ Sample.key "type") "STRING" "_type" None)
     = ("", "a1.value:" ++ Sample.key "type" ++ "::STRING as json_data_contact_phone_type").
Proof.
  split.
  - apply (array_alias_quoting "Match col case" "json_data" Sample.code_rgb 1 "" ""
             (mkArrayRow "" "FLOAT" "" (Some 0%N))).
    reflexivity.
  - apply (array_alias_quoting "uppercase cols" "json_data" Sample.contact_phone 1 "" ""
             (mkArrayRow ("." ++ Sample.key "type") "STRING" "_type" None)).
    reflexivity.
Defined.

(** ** The loop over the element rows *)

Lemma element_loop_fold (COLUMN_CASE COLUMN_TYPE : string) (snowflake : Snowflake)
    (col : string) (rows : list ElementRow) (v : Vars) :
  element_loop COLUMN_CASE COLUMN_TYPE snowflake col rows v
  = fold_left (fun w e => element_body COLUMN_CASE COLUMN_TYPE snowflake col e w)
      (leading rows) v.
Proof.
  revert v. induction rows as [|e rows IH]; intros v; simpl; [reflexivity |].
  destruct (e_path e =? ""); simpl; [reflexivity | apply IH].
Qed.

Lemma leading_app_empty (pre rest : list ElementRow) (e : ElementRow) :
  e_path e = "" -> leading (pre ++ e :: rest) = leading pre.
Proof.
  intros H. induction pre as [|x pre IH]; simpl.
  - now rewrite H.
  - destruct (e_path x =? ""); simpl; [reflexivity | now rewrite IH].
Qed.

(** X4.  The element loop runs its body on the rows before the first row
    with an empty path, in order, and on no other row: the rows that
    follow an empty path change nothing, and rows without any empty path
    are all processed. *)
Theorem element_loop_leading (COLUMN_CASE COLUMN_TYPE : string) (snowflake : Snowflake)
    (col : string) (rows : list ElementRow) (v : Vars) :
  let body := fun w e => element_body COLUMN_CASE COLUMN_TYPE snowflake col e w in
  element_loop COLUMN_CASE COLUMN_TYPE snowflake col rows v
    = fold_left body (leading rows) v
  /\ (forall (pre rest : list ElementRow) (e : ElementRow),
        e_path e = "" ->
        element_loop COLUMN_CASE COLUMN_TYPE snowflake col (pre ++ e :: rest) v
        = element_loop COLUMN_CASE COLUMN_TYPE snowflake col pre v)
  /\ (Forall (fun e => e_path e <> "") rows ->
        element_loop COLUMN_CASE COLUMN_TYPE snowflake col rows v = fold_left body rows v).
Proof.
  intros body. split; [apply element_loop_fold |]. split.
  - intros pre rest e H. now rewrite !element_loop_fold, leading_app_empty.
  - intros H. rewrite element_loop_fold. f_equal.
    induction H as [|e l He _ IH]; simpl; [reflexivity |].
    destruct (String.eqb_spec (e_path e) ""); [contradiction |]. simpl. now rewrite IH.
Qed.

Lemma element_loop_leading_witness :
  element_loop "uppercase cols" "match datatypes" (Sample.json_table []) "json_data"
    ([Sample.name_first] ++ Sample.root_value :: [Sample.name_last; Sample.code_rgb])
    Sample.one_column
  = element_loop "uppercase cols" "match datatypes" (Sample.json_table []) "json_data"
      [Sample.name_first] Sample.one_column.
Proof.
  apply (element_loop_leading "uppercase cols" "match datatypes" (Sample.json_table [])
           "json_data" [] Sample.one_column).
  reflexivity.
Defined.

(** X5.  A VARIANT column whose element statement returns no row, or
    whose first row has an empty path, leaves every variable as it was:
    the column does not appear in the view at all. *)
Theorem variant_without_paths (COLUMN_CASE COLUMN_TYPE : string) (snowflake : Snowflake)
    (v : Vars) (c : ColumnRow) :
  c_type c = "VARIANT" ->
  leading (exec_elements snowflake (element_query COLUMN_TYPE (table_list v) (c_name c)))
    = [] ->
  column_body COLUMN_CASE COLUMN_TYPE snowflake v c = v.
Proof.
  intros Ht Hl. unfold column_body. rewrite Ht, String.eqb_refl.
  now rewrite element_loop_fold, Hl.
Qed.

Lemma variant_without_paths_witness :
  column_body "uppercase cols" "match datatypes" (Sample.json_table [])
    Sample.one_column (mkColumnRow "json_data" "VARIANT")
  = Sample.one_column
  /\ column_body "uppercase cols" "match datatypes"
       (Sample.json_table [Sample.root_value; Sample.name_first])
       Sample.one_column (mkColumnRow "json_data" "VARIANT")
     = Sample.one_column.
Proof.
  split.
  - apply (variant_without_paths "uppercase cols" "match datatypes" (Sample.json_table []));
      reflexivity.
  - apply (variant_without_paths "uppercase cols" "match datatypes"
             (Sample.json_table [Sample.root_value; Sample.name_first]));
      reflexivity.
Defined.

(** X6.  The element loop adds to the array counter the number of ARRAY
    rows among the rows it processes, whether their arrays turn out
    simple, object or empty. *)
Theorem element_loop_counter (COLUMN_CASE COLUMN_TYPE : string) (snowflake : Snowflake)
    (col : string) (rows : list ElementRow) (v : Vars) :
  array_num (element_loop COLUMN_CASE COLUMN_TYPE snowflake col rows v)
  = (array_num v + N.of_nat (List.length (filter is_array (leading rows))))%N.
Proof.
  revert v. induction rows as [|e rows IH]; intros v; simpl.
  - lia.
  - destruct (e_path e =? ""); simpl; [lia |].
    rewrite IH.
    destruct (element_body_trace COLUMN_CASE COLUMN_TYPE snowflake col e v) as (_ & H & _).
    rewrite H. unfold element_visit, is_array.
    destruct (e_type e =? "ARRAY"); simpl List.length; lia.
Qed.

(** ** The whole projection list *)

Lemma push_fold_app (a b : list string) (s : string) :
  fold_left push (a ++ b) s = fold_left push b (fold_left push a s).
Proof. apply fold_left_app. Qed.

Lemma push_fold_concat (es l : list string) :
  Forall nonempty l -> Forall nonempty es ->
  fold_left push es (String.concat sep l) = String.concat sep (l ++ es).
Proof.
  intros Hl Hes. revert l Hl.
  induction Hes as [|f es Hf _ IH]; intros l Hl; cbn [fold_left].
  - now rewrite app_nil_r.
  - unfold push at 2. rewrite push_concat by assumption.
    rewrite IH.
    + now rewrite <- app_assoc.
    + apply Forall_app. split; [assumption | constructor; [exact Hf | constructor]].
Qed.

Lemma push_fold_prefix (es : list string) (s : string) :
  exists t, fold_left push es s = s ++ t.
Proof.
  revert s. induction es as [|f es IH]; intros s; cbn [fold_left].
  - exists "". now rewrite app_nil_r_s.
  - destruct (IH (push s f)) as [t Ht]. rewrite Ht. unfold push, add_separator.
    destruct (s =? "").
    + exists (f ++ t). now rewrite app_assoc_s.
    + exists ((", " ++ Js.nl) ++ f ++ t). now rewrite !app_assoc_s.
Qed.

Section EntriesRun.

Variables SCHEMA_NAME V_TAB_NM COLUMN_CASE COLUMN_TYPE DATA_BASE : string.
Variable snowflake : Snowflake.

Lemma element_body_entry (col : string) (e : ElementRow) (v : Vars) :
  col_list (element_body COLUMN_CASE COLUMN_TYPE snowflake col e v)
  = push (col_list v) (element_entry COLUMN_CASE COLUMN_TYPE snowflake col e v).
Proof.
  unfold element_entry, push.
  destruct (String.eqb_spec (e_type e) "ARRAY") as [E|E]; cbn [negb].
  - destruct (existsb is_object
                (exec_array snowflake
                   (array_query COLUMN_TYPE (table_list v) col (e_path e)))) eqn:Hex.
    + now rewrite (element_body_object_array _ _ _ _ _ _ E Hex).
    + now rewrite (element_body_simple_array _ _ _ _ _ _ E Hex).
  - now rewrite (element_body_scalar _ _ _ _ _ _ E).
Qed.

Lemma element_loop_entries (col : string) (rows : list ElementRow) (v : Vars) :
  col_list (element_loop COLUMN_CASE COLUMN_TYPE snowflake col rows v)
  = fold_left push (element_entries COLUMN_CASE COLUMN_TYPE snowflake col rows v)
      (col_list v).
Proof.
  revert v. induction rows as [|e rows IH]; intros v; simpl; [reflexivity |].
  destruct (e_path e =? ""); simpl; [reflexivity |].
  now rewrite IH, element_body_entry.
Qed.

Lemma column_body_entries (v : Vars) (c : ColumnRow) :
  col_list (column_body COLUMN_CASE COLUMN_TYPE snowflake v c)
  = fold_left push (column_entries COLUMN_CASE COLUMN_TYPE snowflake v c) (col_list v).
Proof.
  unfold column_body, column_entries. destruct (c_type c =? "VARIANT").
  - apply element_loop_entries.
  - reflexivity.
Qed.

Lemma columns_entries_fold (rows : list ColumnRow) (v : Vars) :
  col_list (fold_left (column_body COLUMN_CASE COLUMN_TYPE snowflake) rows v)
  = fold_left push (columns_entries COLUMN_CASE COLUMN_TYPE snowflake rows v) (col_list v).
Proof.
  revert v. induction rows as [|c rows IH]; intros v; cbn [fold_left columns_entries].
  - reflexivity.
  - now rewrite IH, push_fold_app, column_body_entries.
Qed.

End EntriesRun.

(** X7.  When the catalog statement returns no row the loops change
    nothing, and the statement that is executed has an empty projection
    list between SELECT and FROM. *)
Theorem empty_catalog_view (DATA_BASE SCHEMA_NAME V_TAB_NM COLUMN_CASE COLUMN_TYPE : string)
    (snowflake : Snowflake) :
  exec_columns snowflake (sqlMetaQryBld DATA_BASE SCHEMA_NAME V_TAB_NM) = [] ->
  final DATA_BASE SCHEMA_NAME V_TAB_NM COLUMN_CASE COLUMN_TYPE snowflake
    = initial SCHEMA_NAME V_TAB_NM
  /\ view_ddl DATA_BASE SCHEMA_NAME V_TAB_NM COLUMN_CASE COLUMN_TYPE snowflake
     = "CREATE OR REPLACE VIEW " ++ V_TAB_NM ++ "_VW AS " ++ Js.nl
         ++ "SELECT " ++ Js.nl ++ Js.nl
         ++ "FROM " ++ SCHEMA_NAME ++ "." ++ V_TAB_NM.
Proof.
  intros H.
  assert (E : final DATA_BASE SCHEMA_NAME V_TAB_NM COLUMN_CASE COLUMN_TYPE snowflake
              = initial SCHEMA_NAME V_TAB_NM).
  { unfold final, column_loop. now rewrite H. }
  split; [exact E |]. unfold view_ddl. rewrite E. reflexivity.
Qed.

Lemma empty_catalog_view_witness :
  view_ddl "DB" "PUBLIC" "MISSING" "uppercase cols" "match datatypes"
    (mkSnowflake (fun _ => []) (fun _ => []) (fun _ => []))
  = "CREATE OR REPLACE VIEW MISSING_VW AS " ++ Js.nl ++ "SELECT " ++ Js.nl ++ Js.nl
      ++ "FROM PUBLIC.MISSING".
Proof.
  apply (empty_catalog_view "DB" "PUBLIC" "MISSING" "uppercase cols" "match datatypes"
           (mkSnowflake (fun _ => []) (fun _ => []) (fun _ => []))).
  reflexivity.
Defined.

(** X8.  The statement of a run is the fixed header with the view name,
    the entries of the run in discovery order, and the FROM clause made
    of the base table and the auxiliary sources.  The entries are put one
    after the other with a separator before each entry that finds the
    list not empty; when no entry is the empty string this is the entries
    joined by the separator. *)
Theorem view_statement (DATA_BASE SCHEMA_NAME V_TAB_NM COLUMN_CASE COLUMN_TYPE : string)
    (snowflake : Snowflake) :
  let es := entries SCHEMA_NAME V_TAB_NM COLUMN_CASE COLUMN_TYPE DATA_BASE snowflake in
  let sources :=
    auxiliary_sources SCHEMA_NAME V_TAB_NM COLUMN_CASE COLUMN_TYPE DATA_BASE snowflake in
  let statement (projection : string) :=
    "CREATE OR REPLACE VIEW " ++ V_TAB_NM ++ "_VW AS " ++ Js.nl
      ++ "SELECT " ++ Js.nl ++ projection ++ Js.nl
      ++ "FROM " ++ SCHEMA_NAME ++ "." ++ V_TAB_NM ++ render_sources sources in
  view_ddl DATA_BASE SCHEMA_NAME V_TAB_NM COLUMN_CASE COLUMN_TYPE snowflake
    = statement (fold_left push es "")
  /\ (Forall nonempty es ->
        view_ddl DATA_BASE SCHEMA_NAME V_TAB_NM COLUMN_CASE COLUMN_TYPE snowflake
        = statement (String.concat sep es)).
Proof.
  intros es sources statement.
  assert (E : view_ddl DATA_BASE SCHEMA_NAME V_TAB_NM COLUMN_CASE COLUMN_TYPE snowflake
              = statement (fold_left push es "")).
  { unfold view_ddl, statement.
    destruct (final_trace SCHEMA_NAME V_TAB_NM COLUMN_CASE COLUMN_TYPE DATA_BASE snowflake)
      as (T & _ & _).
    rewrite T. unfold final, column_loop. rewrite columns_entries_fold.
    cbn [initial col_list table_list]. fold es. unfold sources, auxiliary_sources.
    now rewrite !app_assoc_s. }
  split; [exact E |].
  intros H. rewrite E. f_equal.
  change "" with (String.concat sep []).
  now rewrite push_fold_concat by (assumption || constructor).
Qed.

Lemma view_statement_witness :
  view_ddl "DB" "PUBLIC" "CONTACTS" "uppercase cols" "string datatypes"
    (Sample.json_table [Sample.name_first; Sample.contact_phone])
  = "CREATE OR REPLACE VIEW CONTACTS_VW AS " ++ Js.nl ++ "SELECT " ++ Js.nl
      ++ "ID" ++ sep
      ++ "json_data:" ++ Sample.key "name" ++ "." ++ Sample.key "first"
      ++ "::STRING as json_data_name_first" ++ sep
      ++ "a1.value:" ++ Sample.key "type" ++ "::STRING as json_data_contact_phone_type" ++ sep
      ++ "a1.value:" ++ Sample.key "number" ++ "::STRING as json_data_contact_phone_number"
      ++ Js.nl
      ++ "FROM PUBLIC.CONTACTS," ++ Js.nl ++ " LATERAL FLATTEN(json_data:"
      ++ Sample.key "contact" ++ "." ++ Sample.key "phone" ++ ") a1".
Proof.
  apply (view_statement "DB" "PUBLIC" "CONTACTS" "uppercase cols" "string datatypes"
           (Sample.json_table [Sample.name_first; Sample.contact_phone])).
  repeat constructor; discriminate.
Defined.

(** X9.  The loop over the catalog rows only appends: from any values of
    the variables, the projection list and the table list it ends with
    start with the ones it began with, and the array counter is not
    smaller. *)
Theorem lists_only_grow (COLUMN_CASE COLUMN_TYPE : string) (snowflake : Snowflake)
    (rows : list ColumnRow) (v : Vars) :
  let v' := fold_left (column_body COLUMN_CASE COLUMN_TYPE snowflake) rows v in
  (exists c, col_list v' = col_list v ++ c)
  /\ (exists t, table_list v' = table_list v ++ t)
  /\ (array_num v <= array_num v')%N.
Proof.
  intros v'. subst v'.
  destruct (columns_trace COLUMN_CASE COLUMN_TYPE snowflake rows v) as (T & K & _).
  split; [| split].
  - rewrite columns_entries_fold. apply push_fold_prefix.
  - eexists. exact T.
  - rewrite K. lia.
Qed.

(** ** The range of the type expressions *)

(** X10.  Whatever the reported type, the type expression yields ARRAY,
    BOOLEAN, FLOAT or STRING, and with COLUMN_TYPE starting with S or s
    only ARRAY or STRING. *)
Theorem mapped_type_range (COLUMN_TYPE t : string) :
  In (Sql.eval (attribute_type_sql COLUMN_TYPE) t) ["ARRAY"; "BOOLEAN"; "FLOAT"; "STRING"]
  /\ (starts_with "S" "s" COLUMN_TYPE = true ->
        In (Sql.eval (attribute_type_sql COLUMN_TYPE) t) ["ARRAY"; "STRING"]).
Proof.
  unfold attribute_type_sql.
  rewrite upper_first_S.
  destruct (string_types COLUMN_TYPE) eqn:M.
  - unfold Sql.eval. cbn [Sql.d_subject Sql.d_cases Sql.d_default Sql.eval_subject
                            Sql.eval_cases].
    destruct (t =? "ARRAY"); simpl; auto 6.
  - split; [| intros H; apply starts_with_string_types in H; congruence].
    unfold Sql.eval. cbn [Sql.d_subject Sql.d_cases Sql.d_default Sql.eval_subject Nat.sub].
    rewrite substring_first. destruct t as [|c r]; [simpl; auto 6 |].
    cbn [Js.charAt0].
    destruct c as [[] [] [] [] [] [] [] []]; simpl; auto 6.
Qed.

Lemma mapped_type_range_witness :
  In (Sql.eval (attribute_type_sql "string datatypes") "BOOLEAN") ["ARRAY"; "STRING"].
Proof.
  apply (mapped_type_range "string datatypes" "BOOLEAN"). reflexivity.
Defined.

(** ** Entries that are empty *)

Lemma all_simple_candidates_nil (q col : string) (e : ElementRow) (rows : list ArrayRow) :
  existsb is_object rows = false ->
  simple_candidates q col e rows = [] -> rows = [].
Proof.
  unfold simple_candidates. destruct rows as [|a rows]; [reflexivity |].
  simpl. intros H. apply orb_false_iff in H. destruct H as [Ha _].
  rewrite Ha. discriminate.
Qed.

(** X11.  One pass of the element loop body adds an empty entry, that is
    the separator alone or nothing at all, exactly when the row is an
    ARRAY whose array statement returns no row. *)
Theorem empty_entry_iff (COLUMN_CASE COLUMN_TYPE : string) (snowflake : Snowflake)
    (col : string) (e : ElementRow) (v : Vars) :
  col_list (element_body COLUMN_CASE COLUMN_TYPE snowflake col e v)
    = add_separator (col_list v)
  <-> e_type e = "ARRAY"
      /\ exec_array snowflake (array_query COLUMN_TYPE (table_list v) col (e_path e)) = [].
Proof.
  set (rows := exec_array snowflake (array_query COLUMN_TYPE (table_list v) col (e_path e))).
  destruct (String.eqb_spec (e_type e) "ARRAY") as [E|E].
  - destruct (existsb is_object rows) eqn:Hex.
    + rewrite (element_body_object_array _ _ _ _ _ _ E Hex). cbn [col_list]. fold rows.
      split.
      * intros H. apply app_eq_self in H.
        apply object_candidates_nil_iff in H. congruence.
      * intros [_ H]. rewrite H in Hex. discriminate.
    + rewrite (element_body_simple_array _ _ _ _ _ _ E Hex). cbn [col_list]. fold rows.
      split.
      * intros H. apply app_eq_self in H.
        apply concat_nil_iff in H; [| apply simple_candidates_nonempty].
        split; [exact E | now apply all_simple_candidates_nil in H].
      * intros [_ H]. rewrite H. cbn. apply app_nil_r_s.
  - rewrite (element_body_scalar _ _ _ _ _ _ E). cbn [col_list]. split.
    + intros H. apply app_eq_self in H. apply app_eq_nil_s in H.
      destruct H as [_ H]. discriminate H.
    + intros [H _]. contradiction.
Qed.
